(** * Filecoin Pin storage provider (src/storage/filecoin_pin_provider.py)

    A shallow embedding of [FilecoinPinStorageProvider]: [put] (staging
    the payload in a temporary directory, running the filecoin-pin CLI,
    parsing its output), [get] (ordered gateway fallback), [verify],
    and [upload_json].

    Python [str] values are modelled as lists of Unicode code points
    ([pystr]); Python [bytes] as lists of [Byte.byte].  The external
    world (temporary directory creation, file writes, the subprocess,
    the HTTP client) is an explicit environment argument; the local
    filesystem is explicit state.  Calls to [print] are modelled as
    writing nothing and never failing. *)

From Stdlib Require Import NArith ZArith String Ascii List Bool Lia.
From Stdlib Require Strings.Byte.
Import ListNotations.
Open Scope N_scope.
Set Warnings "-register-all".

(** ** Python strings *)
Module PyStr.

Definition pystr := list N.

(** An ASCII literal as a Python string. *)
Fixpoint s2p (s : string) : pystr :=
  match s with
  | EmptyString => []
  | String a r => N_of_ascii a :: s2p r
  end.

Definition str_eqb (a b : pystr) : bool :=
  if list_eq_dec N.eq_dec a b then true else false.

(** [s.startswith(pre)] *)
Fixpoint startswith (s pre : pystr) {struct pre} : bool :=
  match pre with
  | [] => true
  | p :: pr =>
      match s with
      | [] => false
      | c :: r => N.eqb p c && startswith r pr
      end
  end.

(** [sub in s] *)
Fixpoint contains (sub s : pystr) : bool :=
  startswith s sub ||
  match s with
  | [] => false
  | _ :: r => contains sub r
  end.

(** [s.split(sep)] for a non-empty [sep]: leftmost, non-overlapping
    occurrences; [skip] counts the characters of a matched separator
    still to be consumed. *)
Fixpoint split_go (sep : pystr) (skip : nat) (s : pystr) : list pystr :=
  match s with
  | [] => [[]]
  | c :: r =>
      match skip with
      | S k => split_go sep k r
      | O =>
          if startswith s sep
          then [] :: split_go sep (pred (length sep)) r
          else match split_go sep O r with
               | h :: t => (c :: h) :: t
               | [] => [[c]]
               end
      end
  end.

Definition py_split (s sep : pystr) : list pystr := split_go sep O s.

(** [s.replace(old, new)] for a non-empty [old]. *)
Fixpoint replace_go (old new : pystr) (skip : nat) (s : pystr) : pystr :=
  match s with
  | [] => []
  | c :: r =>
      match skip with
      | S k => replace_go old new k r
      | O =>
          if startswith s old
          then new ++ replace_go old new (pred (length old)) r
          else c :: replace_go old new O r
      end
  end.

Definition py_replace (s old new : pystr) : pystr := replace_go old new O s.

(** [str.isspace] on one code point. *)
Definition isspace (c : N) : bool :=
  ((9 <=? c) && (c <=? 13)) || ((28 <=? c) && (c <=? 32)) ||
  (c =? 133) || (c =? 160) || (c =? 5760) ||
  ((8192 <=? c) && (c <=? 8202)) || (c =? 8232) || (c =? 8233) ||
  (c =? 8239) || (c =? 8287) || (c =? 12288).

Fixpoint lstrip (s : pystr) : pystr :=
  match s with
  | c :: r => if isspace c then lstrip r else s
  | [] => []
  end.

(** [s.strip()] *)
Definition strip (s : pystr) : pystr := rev (lstrip (rev (lstrip s))).

(** Line boundaries of [str.splitlines]. *)
Definition is_linebreak (c : N) : bool :=
  (c =? 10) || (c =? 11) || (c =? 12) || (c =? 13) ||
  (c =? 28) || (c =? 29) || (c =? 30) || (c =? 133) ||
  (c =? 8232) || (c =? 8233).

(** [s.splitlines()]; [cur] is the current line, reversed. *)
Fixpoint splitlines_go (cur : pystr) (s : pystr) : list pystr :=
  match s with
  | [] => match cur with [] => [] | _ => [rev cur] end
  | c :: r =>
      if c =? 13 then
        match r with
        | 10 :: r' => rev cur :: splitlines_go [] r'
        | _ => rev cur :: splitlines_go [] r
        end
      else if is_linebreak c then rev cur :: splitlines_go [] r
      else splitlines_go (c :: cur) r
  end.

Definition splitlines (s : pystr) : list pystr := splitlines_go [] s.

(** [str(n)] for an [int]. *)
Fixpoint uint_digits (u : Decimal.uint) : pystr :=
  match u with
  | Decimal.Nil => []
  | Decimal.D0 u => 48 :: uint_digits u
  | Decimal.D1 u => 49 :: uint_digits u
  | Decimal.D2 u => 50 :: uint_digits u
  | Decimal.D3 u => 51 :: uint_digits u
  | Decimal.D4 u => 52 :: uint_digits u
  | Decimal.D5 u => 53 :: uint_digits u
  | Decimal.D6 u => 54 :: uint_digits u
  | Decimal.D7 u => 55 :: uint_digits u
  | Decimal.D8 u => 56 :: uint_digits u
  | Decimal.D9 u => 57 :: uint_digits u
  end.

Definition int_str (z : Z) : pystr :=
  match z with
  | Z.neg p => 45 :: uint_digits (N.to_uint (Npos p))
  | _ => uint_digits (N.to_uint (Z.to_N z))
  end.

(** [x or y] on strings: the empty string is falsy. *)
Definition str_or (x y : pystr) : pystr :=
  match x with [] => y | _ => x end.

End PyStr.
Import PyStr.

(** ** Exceptions and Python values *)
Module PyVal.

(** Exceptions reaching the handlers of the provider: all of them are
    instances of [Exception]; [TimeoutExpired] is the one raised by
    [subprocess.run] when its timeout elapses. *)
Inductive exn :=
| TimeoutExpired
| Exn (type_name : pystr) (msg : pystr).

(** [str(e)] *)
Definition exn_str (e : exn) : pystr :=
  match e with
  | TimeoutExpired => s2p "Command timed out after 300 seconds"
  | Exn _ msg => msg
  end.

(** The values stored in dictionaries and passed to [json.dumps];
    [PObj] is an object of another type, which [json.dumps] rejects. *)
Inductive pyval :=
| PNone
| PBool (b : bool)
| PInt (z : Z)
| PStr (s : pystr)
| PList (l : list pyval)
| PDict (d : list (pystr * pyval))
| PObj (type_name : pystr).

(** [Optional[str]] as a value *)
Definition opt_str (o : option pystr) : pyval :=
  match o with None => PNone | Some s => PStr s end.

(** [d.get(k)] on a dictionary kept in insertion order. *)
Fixpoint dict_get {V} (k : pystr) (d : list (pystr * V)) : option V :=
  match d with
  | [] => None
  | (k', v) :: r => if str_eqb k k' then Some v else dict_get k r
  end.

End PyVal.
Import PyVal.

(** ** [json.dumps(obj, indent=2)] and [str.encode("utf-8")] *)
Module Json.

Definition hexdigit (d : N) : N := if d <? 10 then 48 + d else 87 + d.

(** ['{0:04x}'.format(n)] for [n < 65536] *)
Definition hex4 (n : N) : pystr :=
  map (fun k => hexdigit (N.land (N.shiftr n k) 15)) [12; 8; 4; 0].

(** One character as written by [py_encode_basestring_ascii]
    ([ensure_ascii=True], the default). *)
Definition escape_char (c : N) : pystr :=
  if c =? 92 then [92; 92]
  else if c =? 34 then [92; 34]
  else if c =? 10 then [92; 110]
  else if c =? 13 then [92; 114]
  else if c =? 9 then [92; 116]
  else if c =? 8 then [92; 98]
  else if c =? 12 then [92; 102]
  else if (32 <=? c) && (c <=? 126) then [c]
  else if c <? 65536 then [92; 117] ++ hex4 c
  else
    let n := c - 65536 in
    let s1 := N.lor 55296 (N.land (N.shiftr n 10) 1023) in
    let s2 := N.lor 56320 (N.land n 1023) in
    [92; 117] ++ hex4 s1 ++ [92; 117] ++ hex4 s2.

Definition encode_basestring_ascii (s : pystr) : pystr :=
  34 :: flat_map escape_char s ++ [34].

(** [' ' * 2 * level] *)
Definition indent (level : nat) : pystr := repeat 32 (2 * level).

(** [_make_iterencode] with [indent=2], [item_separator=','] and
    [key_separator=': ']; [inr t] is the [TypeError] raised for an
    object of type [t], which is not serializable. *)
Fixpoint iterencode (level : nat) (o : pyval) : pystr + pystr :=
  match o with
  | PNone => inl (s2p "null")
  | PBool true => inl (s2p "true")
  | PBool false => inl (s2p "false")
  | PInt z => inl (int_str z)
  | PStr s => inl (encode_basestring_ascii s)
  | PList [] => inl (s2p "[]")
  | PList l =>
      let newline_indent := 10 :: indent (S level) in
      let fix items (first : bool) (l : list pyval) : pystr + pystr :=
        match l with
        | [] => inl []
        | v :: r =>
            match iterencode (S level) v, items false r with
            | inl a, inl b =>
                inl ((if first then newline_indent else 44 :: newline_indent) ++ a ++ b)
            | inr t, _ => inr t
            | _, inr t => inr t
            end
        end in
      match items true l with
      | inl body => inl ([91] ++ body ++ (10 :: indent level) ++ [93])
      | inr t => inr t
      end
  | PDict [] => inl (s2p "{}")
  | PDict d =>
      let newline_indent := 10 :: indent (S level) in
      let fix items (first : bool) (d : list (pystr * pyval)) : pystr + pystr :=
        match d with
        | [] => inl []
        | (k, v) :: r =>
            match iterencode (S level) v, items false r with
            | inl a, inl b =>
                inl ((if first then newline_indent else 44 :: newline_indent)
                     ++ encode_basestring_ascii k ++ [58; 32] ++ a ++ b)
            | inr t, _ => inr t
            | _, inr t => inr t
            end
        end in
      match items true d with
      | inl body => inl ([123] ++ body ++ (10 :: indent level) ++ [125])
      | inr t => inr t
      end
  | PObj t => inr t
  end.

Definition dumps (o : pyval) : pystr + exn :=
  match iterencode O o with
  | inl s => inl s
  | inr t =>
      inr (Exn (s2p "TypeError")
               (s2p "Object of type " ++ t ++ s2p " is not JSON serializable"))
  end.

Definition byte_of (n : N) : Byte.byte :=
  match Byte.of_N n with Some b => b | None => Byte.x00 end.

(** UTF-8 encoding of one code point; surrogates are not encodable. *)
Definition utf8_char (c : N) : option (list Byte.byte) :=
  if c <? 128 then Some [byte_of c]
  else if c <? 2048 then
    Some [byte_of (N.lor 192 (N.shiftr c 6)); byte_of (N.lor 128 (N.land c 63))]
  else if (55296 <=? c) && (c <=? 57343) then None
  else if c <? 65536 then
    Some [byte_of (N.lor 224 (N.shiftr c 12));
          byte_of (N.lor 128 (N.land (N.shiftr c 6) 63));
          byte_of (N.lor 128 (N.land c 63))]
  else
    Some [byte_of (N.lor 240 (N.shiftr c 18));
          byte_of (N.lor 128 (N.land (N.shiftr c 12) 63));
          byte_of (N.lor 128 (N.land (N.shiftr c 6) 63));
          byte_of (N.lor 128 (N.land c 63))].

(** [s.encode("utf-8")] *)
Fixpoint encode_utf8 (s : pystr) : list Byte.byte + exn :=
  match s with
  | [] => inl []
  | c :: r =>
      match utf8_char c, encode_utf8 r with
      | Some b, inl bs => inl (b ++ bs)
      | None, _ =>
          inr (Exn (s2p "UnicodeEncodeError") (s2p "surrogates not allowed"))
      | _, inr e => inr e
      end
  end.

End Json.

(** ** The provider *)
Module Provider.

Record StorageResult := {
  success : bool;
  uri : pystr;
  hash : pystr;
  provider : pystr;
  cid : pystr;
  view_url : pystr;
  size : Z;
  metadata : list (pystr * pyval);
  error : pystr
}.

(** Constructor arguments, fixed after [__init__]. *)
Record config := {
  filecoin_pin_path : pystr;
  auto_fund : bool;
  bare : bool;
  verbose : bool;
  private_key : option pystr
}.

(** The local filesystem: existing directories and written files
    (path and contents). *)
Record fs_state := {
  dirs : list pystr;
  files : list (pystr * list Byte.byte)
}.

(** What [subprocess.run(..., capture_output=True, text=True,
    timeout=300)] does: the process completes with an exit code and
    decoded output, or the call raises ([TimeoutExpired], [OSError],
    [UnicodeDecodeError], ...). *)
Inductive run_outcome :=
| Completed (returncode : Z) (stdout stderr : pystr)
| RunRaised (e : exn).

(** The outside world seen by [put]. *)
Record env := {
  env_mkdtemp : pystr + exn;  (** the directory [tempfile.mkdtemp] creates, or its error *)
  env_write : pystr -> list Byte.byte -> option exn;  (** error of [write_bytes] at a path *)
  env_run : list pystr -> run_outcome  (** the CLI's behaviour on a command vector *)
}.

(** State and exceptions, threaded as in the Python code. *)
Definition M (A : Type) := fs_state -> (A + exn) * fs_state.

Definition ret {A} (a : A) : M A := fun s => (inl a, s).

Definition bind {A B} (m : M A) (k : A -> M B) : M B :=
  fun s => let (r, s') := m s in
           match r with inl a => k a s' | inr e => (inr e, s') end.

Notation "x <- m ;; k" := (bind m (fun x => k))
  (at level 61, m at next level, right associativity).

Definition lift {A} (r : A + exn) : M A := fun s => (r, s).

(** [try: m except ...: h(e)] *)
Definition try_except {A} (m : M A) (h : exn -> M A) : M A :=
  fun s => let (r, s') := m s in
           match r with inl a => (inl a, s') | inr e => h e s' end.

(** [try: m finally: fin]: an exception of [fin] replaces the outcome. *)
Definition try_finally {A} (m : M A) (fin : M unit) : M A :=
  fun s => let (r, s') := m s in
           let (rf, s'') := fin s' in
           match rf with inl _ => (r, s'') | inr e => (inr e, s'') end.

Definition mkdtemp (w : env) : M pystr :=
  fun s => match env_mkdtemp w with
           | inl d => (inl d, {| dirs := d :: dirs s; files := files s |})
           | inr e => (inr e, s)
           end.

Definition write_bytes (w : env) (path : pystr) (blob : list Byte.byte) : M unit :=
  fun s => match env_write w path blob with
           | None => (inl tt, {| dirs := dirs s; files := (path, blob) :: files s |})
           | Some e => (inr e, s)
           end.

(** [shutil.rmtree(d, ignore_errors=True)]: never raises. *)
Definition rmtree (d : pystr) : M unit :=
  fun s => (inl tt,
            {| dirs := filter (fun x => negb (str_eqb x d)) (dirs s);
               files := filter (fun f => negb (startswith (fst f) (d ++ s2p "/")))
                               (files s) |}).

Definition subprocess_run (w : env) (command : list pystr) : M (Z * pystr * pystr) :=
  fun s => match env_run w command with
           | Completed rc out err => (inl (rc, out, err), s)
           | RunRaised e => (inr e, s)
           end.

(** [_filename_for_mime] *)
Definition filename_for_mime (mime : option pystr) : pystr :=
  match mime with
  | Some m =>
      if str_eqb m (s2p "application/json") then s2p "chaoschain_proof.json"
      else if startswith m (s2p "text/") then s2p "chaoschain_payload.txt"
      else s2p "chaoschain_payload.bin"
  | None => s2p "chaoschain_payload.bin"
  end.

(** [_build_command] *)
Definition build_command (self : config) (temp_path : pystr) : list pystr :=
  [filecoin_pin_path self; s2p "add"; temp_path]
  ++ (if auto_fund self then [s2p "--auto-fund"] else [])
  ++ (if bare self then [s2p "--bare"] else [])
  ++ (if verbose self then [s2p "--verbose"] else [])
  ++ (match private_key self with
      | Some (_ :: _ as k) => [s2p "--private-key"; k]
      | _ => []
      end).

(** The dictionary returned by [_parse_cli_output]. *)
Record cli_fields := {
  root_cid : option pystr;
  piece_cid : option pystr;
  data_set_id : option pystr;
  transaction_hash : option pystr;
  file_size_display : option pystr
}.

(** [line.split(label)[1].strip()]; [None] is the [IndexError]. *)
Definition after_label (line label : pystr) : option pystr :=
  match nth_error (py_split line label) 1 with
  | Some x => Some (strip x)
  | None => None
  end.

(** The literal of line 130: the UTF-8 bytes of the box-drawing
    character read as cp1252 ("â”‚"), then " Hash:". *)
Definition hash_label : pystr := [226; 8221; 8218] ++ s2p " Hash:".

(** [re.search(r"IPFS content loaded \(([^)]+)\)", line).group(1)]:
    the leftmost "IPFS content loaded (" followed by one or more
    characters other than ")" and then ")". *)
Fixpoint paren_group (s : pystr) : option pystr :=
  match s with
  | [] => None
  | c :: r => if c =? 41 then Some [] else option_map (cons c) (paren_group r)
  end.

Definition loaded_label : pystr := s2p "IPFS content loaded (".

Fixpoint search_loaded (s : pystr) : option pystr :=
  match s with
  | [] => None
  | _ :: r =>
      match (if startswith s loaded_label
             then match paren_group (skipn (length loaded_label) s) with
                  | Some (_ :: _) as g => g
                  | _ => None
                  end
             else None) with
      | Some g => Some g
      | None => search_loaded r
      end
  end.

(** The loop of [_parse_cli_output] over [output.splitlines()]. *)
Fixpoint parse_lines (acc : cli_fields) (lines : list pystr) : option cli_fields :=
  match lines with
  | [] => Some acc
  | line :: rest =>
      let step :=
        if contains (s2p "Root CID:") line then
          option_map (fun v => {| root_cid := Some v; piece_cid := piece_cid acc;
                                  data_set_id := data_set_id acc;
                                  transaction_hash := transaction_hash acc;
                                  file_size_display := file_size_display acc |})
                     (after_label line (s2p "Root CID:"))
        else if contains (s2p "Piece CID:") line then
          option_map (fun v => {| root_cid := root_cid acc; piece_cid := Some v;
                                  data_set_id := data_set_id acc;
                                  transaction_hash := transaction_hash acc;
                                  file_size_display := file_size_display acc |})
                     (after_label line (s2p "Piece CID:"))
        else if contains (s2p "Data Set ID:") line then
          option_map (fun v => {| root_cid := root_cid acc; piece_cid := piece_cid acc;
                                  data_set_id := Some v;
                                  transaction_hash := transaction_hash acc;
                                  file_size_display := file_size_display acc |})
                     (after_label line (s2p "Data Set ID:"))
        else if startswith (strip line) hash_label then
          option_map (fun v => {| root_cid := root_cid acc; piece_cid := piece_cid acc;
                                  data_set_id := data_set_id acc;
                                  transaction_hash := Some v;
                                  file_size_display := file_size_display acc |})
                     (after_label line (s2p "Hash:"))
        else if contains loaded_label line then
          match search_loaded line with
          | Some g => Some {| root_cid := root_cid acc; piece_cid := piece_cid acc;
                              data_set_id := data_set_id acc;
                              transaction_hash := transaction_hash acc;
                              file_size_display := Some g |}
          | None => Some acc
          end
        else Some acc in
      match step with
      | Some acc' => parse_lines acc' rest
      | None => None
      end
  end.

Definition no_fields : cli_fields :=
  {| root_cid := None; piece_cid := None; data_set_id := None;
     transaction_hash := None; file_size_display := None |}.

(** [_parse_cli_output] *)
Definition parse_cli_output (output : pystr) : cli_fields + exn :=
  match parse_lines no_fields (splitlines output) with
  | Some f => inl f
  | None => inr (Exn (s2p "IndexError") (s2p "list index out of range"))
  end.

Definition provider_name : pystr := s2p "filecoin-pin".

(** [StorageResult(success=False, provider="filecoin-pin", error=err)] *)
Definition failure_result (err : pystr) : StorageResult :=
  {| success := false; uri := []; hash := []; provider := provider_name;
     cid := []; view_url := []; size := 0; metadata := []; error := err |}.

(** [tags or {}] as a dictionary value *)
Definition tags_value (tags : option (list (pystr * pystr))) : pyval :=
  PDict (map (fun kv => (fst kv, PStr (snd kv)))
             (match tags with Some t => t | None => [] end)).

(** [put]; [idempotency_key] is accepted and ignored, as in the source. *)
Definition put (self : config) (w : env) (blob : list Byte.byte)
    (mime : option pystr) (tags : option (list (pystr * pystr)))
    (idempotency_key : option pystr) : M StorageResult :=
  try_except
    (let payload_filename := filename_for_mime mime in
     temp_dir <- mkdtemp w ;;
     let temp_path := temp_dir ++ s2p "/" ++ payload_filename in
     _ <- write_bytes w temp_path blob ;;
     try_finally
       (let command := build_command self temp_path in
        result <- subprocess_run w command ;;
        let '(returncode, stdout, stderr) := result in
        if Z.eqb returncode 0 then
          md <- lift (parse_cli_output stdout) ;;
          match root_cid md with
          | None | Some [] =>
              ret (failure_result
                     (s2p "filecoin-pin completed without returning a Root CID"))
          | Some root_cid =>
              let dweb_url := s2p "https://" ++ root_cid ++ s2p ".ipfs.dweb.link/"
                              ++ payload_filename in
              ret {| success := true;
                     uri := s2p "ipfs://" ++ root_cid;
                     hash := root_cid;
                     provider := provider_name;
                     cid := root_cid;
                     view_url := dweb_url;
                     size := Z.of_nat (length blob);
                     metadata :=
                       [(s2p "piece_cid", opt_str (piece_cid md));
                        (s2p "data_set_id", opt_str (data_set_id md));
                        (s2p "transaction_hash", opt_str (transaction_hash md));
                        (s2p "file_size_display", opt_str (file_size_display md));
                        (s2p "mime_type", opt_str mime);
                        (s2p "tags", tags_value tags);
                        (s2p "filecoin_pin", PBool true);
                        (s2p "payload_filename", PStr payload_filename);
                        (s2p "dweb_gateway_url", PStr dweb_url)];
                     error := [] |}
          end
        else
          ret (failure_result
                 (str_or (strip stderr) (s2p "filecoin-pin command failed"))))
       (rmtree temp_dir))
    (fun e =>
       match e with
       | TimeoutExpired =>
           ret (failure_result (s2p "filecoin-pin command timed out after 5 minutes"))
       | _ => ret (failure_result (s2p "Storage error: " ++ exn_str e))
       end).

(** A reply of [requests.get(url, timeout=30)]: a response, or the
    exception the call raises. *)
Inductive response :=
| Response (status_code : Z) (headers : list (pystr * pystr)) (content : list Byte.byte)
| RequestRaised (e : exn).

Definition ascii_lower (c : N) : N := if (65 <=? c) && (c <=? 90) then c + 32 else c.

(** [response.headers.get(name)]: header names compare case-insensitively. *)
Fixpoint headers_get (name : pystr) (hs : list (pystr * pystr)) : option pystr :=
  match hs with
  | [] => None
  | (k, v) :: r =>
      if str_eqb (map ascii_lower k) (map ascii_lower name) then Some v
      else headers_get name r
  end.

(** The [for gateway_url in gateways] loop: the value returned, if
    any, and the URLs requested, in order. *)
Fixpoint try_gateways (net : pystr -> response) (gateways : list pystr)
    : option (list Byte.byte * list (pystr * pyval)) * list pystr :=
  match gateways with
  | [] => (None, [])
  | gateway_url :: rest =>
      match net gateway_url with
      | Response status_code headers content =>
          if Z.eqb status_code 200 then
            (Some (content,
                   [(s2p "content-type", opt_str (headers_get (s2p "Content-Type") headers));
                    (s2p "content-length", opt_str (headers_get (s2p "Content-Length") headers));
                    (s2p "gateway", PStr gateway_url)]),
             [gateway_url])
          else let (r, tr) := try_gateways net rest in (r, gateway_url :: tr)
      | RequestRaised _ =>
          let (r, tr) := try_gateways net rest in (r, gateway_url :: tr)
      end
  end.

Definition gateway_urls (cid : pystr) : list pystr :=
  [s2p "https://ipfs.io/ipfs/" ++ cid;
   s2p "https://gateway.pinata.cloud/ipfs/" ++ cid;
   s2p "https://cloudflare-ipfs.com/ipfs/" ++ cid;
   s2p "https://dweb.link/ipfs/" ++ cid].

Definition retrieval_error (msg : pystr) : exn :=
  Exn (s2p "Exception") (s2p "Error retrieving from IPFS: " ++ msg).

(** [get]: [requests] is the HTTP client ([None] when the module cannot
    be imported); the result comes with the URLs requested. *)
Definition get (requests : option (pystr -> response)) (uri : pystr)
    : ((list Byte.byte * list (pystr * pyval)) + exn) * list pystr :=
  let cid := py_replace uri (s2p "ipfs://") [] in
  let gateways := gateway_urls cid in
  match requests with
  | None => (inr (retrieval_error (s2p "No module named 'requests'")), [])
  | Some net =>
      match try_gateways net gateways with
      | (Some v, tr) => (inl v, tr)
      | (None, tr) =>
          (inr (retrieval_error (s2p "Failed to retrieve from any IPFS gateway")), tr)
      end
  end.

(** [verify] *)
Definition verify (uri expected_hash : pystr) : bool :=
  let cid := py_replace uri (s2p "ipfs://") [] in
  let expected_cid := py_replace expected_hash (s2p "ipfs://") [] in
  str_eqb cid expected_cid.

(** [json.dumps(data, indent=2).encode("utf-8")] *)
Definition serialize_json (data : list (pystr * pyval)) : list Byte.byte + exn :=
  match Json.dumps (PDict data) with
  | inl s => Json.encode_utf8 s
  | inr e => inr e
  end.

(** [upload_json] *)
Definition upload_json (self : config) (w : env) (data : list (pystr * pyval))
    (filename : option pystr) : M (option pystr) :=
  try_except
    (json_data <- lift (serialize_json data) ;;
     result <- put self w json_data (Some (s2p "application/json"))
                   (Some [(s2p "filename",
                           match filename with
                           | Some f => str_or f (s2p "data.json")
                           | None => s2p "data.json"
                           end)]) None ;;
     if success result then ret (Some (cid result)) else ret None)
    (fun _ => ret None).

(** [RuntimeError(msg)] *)
Definition runtime_error (msg : pystr) : exn := Exn (s2p "RuntimeError") msg.

(** [_verify_filecoin_pin]: runs [<path> --version] (timeout 10 s);
    [RuntimeError] for a non-zero exit, a missing executable or a
    timeout; any other exception of [subprocess.run] propagates. *)
Definition verify_filecoin_pin (self : config) (run : list pystr -> run_outcome)
    : unit + exn :=
  match run [filecoin_pin_path self; s2p "--version"] with
  | Completed returncode stdout stderr =>
      if Z.eqb returncode 0 then inl tt
      else inr (runtime_error
                  (s2p "filecoin-pin CLI returned non-zero exit code: " ++ strip stderr))
  | RunRaised TimeoutExpired =>
      inr (runtime_error (s2p "filecoin-pin version command timed out"))
  | RunRaised (Exn t m) =>
      if str_eqb t (s2p "FileNotFoundError")
      then inr (runtime_error (s2p "filecoin-pin not found at path: " ++ filecoin_pin_path self))
      else inr (Exn t m)
  end.

(** [FilecoinPinStorageProvider(...)]: the instance, or the exception
    its constructor raises. *)
Definition init (filecoin_pin_path : pystr) (auto_fund bare verbose : bool)
    (private_key : option pystr) (run : list pystr -> run_outcome) : config + exn :=
  let self := {| filecoin_pin_path := filecoin_pin_path; auto_fund := auto_fund;
                 bare := bare; verbose := verbose; private_key := private_key |} in
  match verify_filecoin_pin self run with
  | inl _ => inl self
  | inr e => inr e
  end.

End Provider.
Import Provider.

(** ** The demo agent (src/agent/agent.py) *)
Module Agent.

(** [os.environ] *)
Definition environ := list (pystr * pystr).

(** [os.getenv(name)] *)
Definition getenv (e : environ) (name : pystr) : option pystr := dict_get name e.

(** [os.getenv(name, default)] *)
Definition getenv_default (e : environ) (name default : pystr) : pystr :=
  match dict_get name e with Some v => v | None => default end.

(** [value.lower() == "true"].  Only the ASCII capitals T, R, U, E
    lower-case to one of the letters of "true" (no other code point
    lower-cases to a string made of them), so lowering ASCII letters
    decides the comparison. *)
Definition lower_is_true (value : pystr) : bool :=
  str_eqb (map ascii_lower value) (s2p "true").

Definition system_exit : exn := Exn (s2p "SystemExit") (s2p "1").

(** The storage provider built by [create_sdk] (lines 53-65): any
    exception of the constructor becomes [SystemExit(1)]. *)
Definition create_storage_provider (e : environ) (run : list pystr -> run_outcome)
    : config + exn :=
  match init (getenv_default e (s2p "FILECOIN_PIN_PATH") (s2p "filecoin-pin"))
             (lower_is_true (getenv_default e (s2p "FILECOIN_PIN_AUTO_FUND") (s2p "true")))
             (lower_is_true (getenv_default e (s2p "FILECOIN_PIN_BARE") (s2p "false")))
             (lower_is_true (getenv_default e (s2p "FILECOIN_PIN_VERBOSE") (s2p "false")))
             (getenv e (s2p "FILECOIN_CALIBRATION_PRIVATE_KEY")) run with
  | inl p => inl p
  | inr _ => inr system_exit
  end.

(** The classes of [requests.exceptions] deriving from
    [RequestException]. *)
Definition request_exception_types : list pystr :=
  map (fun n => s2p "requests.exceptions." ++ s2p n)
    ["RequestException"; "InvalidJSONError"; "JSONDecodeError"; "HTTPError";
     "ConnectionError"; "ProxyError"; "SSLError"; "Timeout"; "ConnectTimeout";
     "ReadTimeout"; "URLRequired"; "TooManyRedirects"; "MissingSchema";
     "InvalidSchema"; "InvalidURL"; "InvalidHeader"; "InvalidProxyURL";
     "ChunkedEncodingError"; "ContentDecodingError"; "StreamConsumedError";
     "RetryError"; "UnrewindableBodyError"]%string.

Definition is_request_exception (e : exn) : bool :=
  match e with
  | Exn t _ => existsb (str_eqb t) request_exception_types
  | TimeoutExpired => false
  end.

Definition contact_url_of (cid : pystr) : pystr :=
  s2p "https://filecoinpin.contact/cid/" ++ cid.

(** [verify_ipfs_content]: the answer (or the exception that escapes)
    and the URLs requested. *)
Definition verify_ipfs_content (net : pystr -> response) (cid : pystr)
    : (bool + exn) * list pystr :=
  match cid with
  | [] => (inl false, [])
  | _ =>
      let contact_url := contact_url_of cid in
      match net contact_url with
      | Response status_code _ _ => (inl (Z.eqb status_code 200), [contact_url])
      | RequestRaised e =>
          if is_request_exception e then (inl false, [contact_url])
          else (inr e, [contact_url])
      end
  end.

End Agent.

(** ** Lemmas on the string operations *)
Module StrFacts.

Lemma startswith_spec (s p : pystr) :
  startswith s p = true <-> exists b, s = p ++ b.
Proof.
  revert s; induction p as [|x p IH]; intros s; simpl.
  - split; intros; [now exists s | destruct s; reflexivity].
  - destruct s as [|c r].
    + split; [discriminate | intros [b Hb]; discriminate].
    + simpl. rewrite andb_true_iff, N.eqb_eq, IH. split.
      * intros [-> [b ->]]. now exists b.
      * intros [b Hb]. injection Hb as -> ->. eauto.
Qed.

Lemma contains_spec (q s : pystr) :
  contains q s = true <-> exists a b, s = a ++ q ++ b.
Proof.
  induction s as [|c r IH]; cbn [contains]; rewrite orb_true_iff, startswith_spec.
  - split.
    + intros [[b Hb] | H]; [|discriminate].
      exists [], b. exact Hb.
    + intros [a [b H]]. left. exists b.
      destruct a; [exact H | discriminate].
  - rewrite IH. split.
    + intros [[b Hb] | [a [b Hab]]].
      * exists [], b. exact Hb.
      * exists (c :: a), b. now rewrite Hab.
    + intros [[|c' a] [b H]].
      * left. now exists b.
      * right. injection H as -> ->. eauto.
Qed.

Lemma contains_app_l (q x y : pystr) :
  contains q y = true -> contains q (x ++ y) = true.
Proof.
  rewrite !contains_spec. intros [a [b ->]].
  exists (x ++ a), b. now rewrite app_assoc.
Qed.

Lemma contains_app_r (q x y : pystr) :
  contains q x = true -> contains q (x ++ y) = true.
Proof.
  rewrite !contains_spec. intros [a [b ->]].
  exists a, (b ++ y). now rewrite <- !app_assoc.
Qed.

Lemma lstrip_suffix (s : pystr) : exists pre, s = pre ++ lstrip s.
Proof.
  induction s as [|c r [pre IH]]; simpl.
  - now exists [].
  - destruct (isspace c).
    + exists (c :: pre). simpl. now rewrite <- IH.
    + now exists [].
Qed.

Lemma strip_infix (s : pystr) : exists pre suf, s = pre ++ strip s ++ suf.
Proof.
  unfold strip.
  destruct (lstrip_suffix s) as [pre Hpre].
  destruct (lstrip_suffix (rev (lstrip s))) as [pre2 Hpre2].
  exists pre, (rev pre2).
  rewrite Hpre at 1. f_equal.
  rewrite <- rev_app_distr, <- Hpre2. now rewrite rev_involutive.
Qed.

Lemma contains_strip (q s : pystr) :
  contains q (strip s) = true -> contains q s = true.
Proof.
  intros H. destruct (strip_infix s) as [pre [suf ->]].
  now apply contains_app_l, contains_app_r.
Qed.

Lemma split_go_not_nil (sep : pystr) (k : nat) (s : pystr) :
  split_go sep k s <> [].
Proof.
  revert k; induction s as [|c r IH]; intros k; cbn [split_go].
  - discriminate.
  - destruct k as [|k]; [|apply IH].
    destruct (startswith (c :: r) sep); [discriminate|].
    destruct (split_go sep O r); discriminate.
Qed.

(** A string containing the separator splits into at least two parts. *)
Lemma py_split_contains (s sep : pystr) :
  sep <> [] -> contains sep s = true ->
  exists a b rest, py_split s sep = a :: b :: rest.
Proof.
  intros Hsep. unfold py_split.
  induction s as [|c r IH]; cbn [contains split_go]; intros H.
  - rewrite orb_false_r, startswith_spec in H. destruct H as [b Hb].
    destruct sep; [contradiction | discriminate].
  - destruct (startswith (c :: r) sep) eqn:E.
    + destruct (split_go sep (pred (length sep)) r) as [|b rest] eqn:Hs.
      * exfalso. exact (split_go_not_nil _ _ _ Hs).
      * now exists [], b, rest.
    + apply orb_true_iff in H as [H|H]; [discriminate|].
      destruct (IH H) as [a [b [rest ->]]].
      now exists (c :: a), b, rest.
Qed.

Lemma after_label_some (line label : pystr) :
  label <> [] -> contains label line = true -> exists v, after_label line label = Some v.
Proof.
  intros Hl H. unfold after_label.
  destruct (py_split_contains _ _ Hl H) as [a [b [rest ->]]].
  simpl. eauto.
Qed.

(** A line whose stripped form starts with the box-drawing label
    contains "Hash:", the separator used on it. *)
Lemma hash_line_contains (line : pystr) :
  startswith (strip line) hash_label = true -> contains (s2p "Hash:") line = true.
Proof.
  intros H. apply contains_strip.
  apply startswith_spec in H. destruct H as [b ->].
  apply contains_spec. exists [226; 8221; 8218; 32], b. reflexivity.
Qed.

(** [str.replace] leaves a string without the pattern unchanged. *)
Lemma replace_go_absent (old : pystr) (s : pystr) :
  contains old s = false -> replace_go old [] O s = s.
Proof.
  induction s as [|c r IH]; cbn [replace_go contains]; intros H; [reflexivity|].
  apply orb_false_iff in H as [H1 H2].
  rewrite H1. f_equal. now apply IH.
Qed.

End StrFacts.

(** ** Lemmas on [put] *)
Module PutFacts.
Import StrFacts.

Definition no_root_line (l : pystr) : bool := negb (contains (s2p "Root CID:") l).

(** The output parser never raises, and keeps [root_cid] when no line
    carries the "Root CID:" label. *)
Lemma parse_lines_total (lines : list pystr) (acc : cli_fields) :
  exists f, parse_lines acc lines = Some f /\
    (forallb no_root_line lines = true -> root_cid f = root_cid acc).
Proof.
  revert acc; induction lines as [|line rest IH]; intros acc.
  - exists acc. split; reflexivity.
  - cbn [parse_lines forallb]. unfold no_root_line at 1.
    destruct (contains (s2p "Root CID:") line) eqn:E1.
    { destruct (after_label_some line (s2p "Root CID:")) as [v Hv];
        [discriminate | exact E1 |].
      rewrite Hv; cbn [option_map].
      destruct (IH {| root_cid := Some v; piece_cid := piece_cid acc;
                      data_set_id := data_set_id acc;
                      transaction_hash := transaction_hash acc;
                      file_size_display := file_size_display acc |}) as [f [Hf _]].
      exists f. split; [exact Hf | discriminate]. }
    cbn [negb andb].
    destruct (contains (s2p "Piece CID:") line) eqn:E2.
    { destruct (after_label_some line (s2p "Piece CID:")) as [v Hv];
        [discriminate | exact E2 |].
      rewrite Hv; cbn [option_map].
      edestruct IH as [f [Hf Hr]]. exists f. split; [exact Hf | exact Hr]. }
    destruct (contains (s2p "Data Set ID:") line) eqn:E3.
    { destruct (after_label_some line (s2p "Data Set ID:")) as [v Hv];
        [discriminate | exact E3 |].
      rewrite Hv; cbn [option_map].
      edestruct IH as [f [Hf Hr]]. exists f. split; [exact Hf | exact Hr]. }
    destruct (startswith (strip line) hash_label) eqn:E4.
    { destruct (after_label_some line (s2p "Hash:")) as [v Hv];
        [discriminate | now apply hash_line_contains |].
      rewrite Hv; cbn [option_map].
      edestruct IH as [f [Hf Hr]]. exists f. split; [exact Hf | exact Hr]. }
    destruct (contains loaded_label line) eqn:E5.
    { destruct (search_loaded line) as [g|].
      - edestruct IH as [f [Hf Hr]]. exists f. split; [exact Hf | exact Hr].
      - edestruct IH as [f [Hf Hr]]. exists f. split; [exact Hf | exact Hr]. }
    edestruct IH as [f [Hf Hr]]. exists f. split; [exact Hf | exact Hr].
Qed.

Lemma parse_cli_output_total (output : pystr) :
  exists f, parse_cli_output output = inl f /\
    (forallb no_root_line (splitlines output) = true -> root_cid f = None).
Proof.
  unfold parse_cli_output.
  destruct (parse_lines_total (splitlines output) no_fields) as [f [-> Hr]].
  exists f. split; [reflexivity | exact Hr].
Qed.

(** The path [put] writes to and passes to the CLI. *)
Definition temp_path_of (temp_dir : pystr) (mime : option pystr) : pystr :=
  temp_dir ++ s2p "/" ++ filename_for_mime mime.

(** Every run of [put] returns (never raises) either a failure result
    with a non-empty error, or a success result carrying a non-empty
    CID that the CLI printed after exiting with code 0. *)
Lemma put_shape (self : config) (w : env) (blob : list Byte.byte)
    (mime : option pystr) (tags : option (list (pystr * pystr)))
    (k : option pystr) (s : fs_state) :
  exists res, fst (put self w blob mime tags k s) = inl res /\
    ((exists err, err <> [] /\ res = failure_result err) \/
     (exists d out err f c,
        env_mkdtemp w = inl d /\
        env_write w (temp_path_of d mime) blob = None /\
        env_run w (build_command self (temp_path_of d mime)) = Completed 0 out err /\
        parse_cli_output out = inl f /\ root_cid f = Some c /\ c <> [] /\
        success res = true /\ cid res = c /\ uri res = s2p "ipfs://" ++ c /\
        error res = [] /\ size res = Z.of_nat (length blob))).
Proof.
  unfold put, try_except, try_finally, bind, mkdtemp, write_bytes,
    subprocess_run, lift, rmtree, ret.
  destruct (env_mkdtemp w) as [d | e] eqn:Hmk.
  2:{ destruct e; eexists; (split; [reflexivity | left; eexists; split; [|reflexivity]]);
      discriminate. }
  fold (temp_path_of d mime).
  destruct (env_write w (temp_path_of d mime) blob) as [e|] eqn:Hw.
  { destruct e; eexists; (split; [reflexivity | left; eexists; split; [|reflexivity]]);
      discriminate. }
  destruct (env_run w (build_command self (temp_path_of d mime)))
    as [rc out err | e] eqn:Hrun.
  2:{ destruct e; eexists; (split; [reflexivity | left; eexists; split; [|reflexivity]]);
      discriminate. }
  destruct (Z.eqb_spec rc 0) as [-> | Hrc].
  - destruct (parse_cli_output_total out) as [f [Hp _]]. rewrite Hp.
    destruct (root_cid f) as [[|c cs]|] eqn:Hroot.
    + eexists; (split; [reflexivity | left; eexists; split; [|reflexivity]]);
        discriminate.
    + eexists; split; [reflexivity|]. right.
      exists d, out, err, f, (c :: cs).
      repeat split; auto; discriminate.
    + eexists; (split; [reflexivity | left; eexists; split; [|reflexivity]]);
        discriminate.
  - eexists; split; [reflexivity|]. left. eexists; split; [|reflexivity].
    unfold str_or. destruct (strip err); discriminate.
Qed.

End PutFacts.

(** ** Lemmas on [get] *)
Module GetFacts.

(** A gateway that does not answer HTTP 200: another status, or an
    exception raised by [requests.get]. *)
Definition gateway_fails (net : pystr -> response) (url : pystr) : bool :=
  match net url with
  | Response status_code _ _ => negb (Z.eqb status_code 200)
  | RequestRaised _ => true
  end.

Lemma try_gateways_first_success (net : pystr -> response)
    (pre : list pystr) (g : pystr) (post : list pystr)
    (headers : list (pystr * pystr)) (content : list Byte.byte) :
  forallb (gateway_fails net) pre = true ->
  net g = Response 200 headers content ->
  try_gateways net (pre ++ g :: post) =
    (Some (content,
           [(s2p "content-type", opt_str (headers_get (s2p "Content-Type") headers));
            (s2p "content-length", opt_str (headers_get (s2p "Content-Length") headers));
            (s2p "gateway", PStr g)]),
     pre ++ [g]).
Proof.
  intros Hpre Hg. induction pre as [|u pre IH]; cbn [app try_gateways].
  - rewrite Hg. reflexivity.
  - cbn [forallb] in Hpre. apply andb_true_iff in Hpre as [Hu Hpre].
    unfold gateway_fails in Hu.
    destruct (net u) as [code hs c|e].
    + apply negb_true_iff in Hu. rewrite Hu, (IH Hpre). reflexivity.
    + rewrite (IH Hpre). reflexivity.
Qed.

Lemma try_gateways_none (net : pystr -> response) (gws : list pystr) :
  fst (try_gateways net gws) = None <-> forallb (gateway_fails net) gws = true.
Proof.
  induction gws as [|u rest IH]; cbn [try_gateways forallb].
  - split; reflexivity.
  - unfold gateway_fails at 1.
    destruct (net u) as [code hs c|e].
    + destruct (Z.eqb code 200); cbn [negb andb].
      * split; discriminate.
      * destruct (try_gateways net rest) as [r tr]. exact IH.
    + destruct (try_gateways net rest) as [r tr]. exact IH.
Qed.

End GetFacts.

(** ** The claims *)
Module Claims.
Import StrFacts PutFacts GetFacts.

(** The two states of a [StorageResult]. *)
Definition two_state (res : StorageResult) : Prop :=
  (success res = true <-> cid res <> []) /\ (cid res <> [] <-> error res = []).

(** C1: every [StorageResult] returned by [put] is in one of the two
    states: success is true iff the CID is non-empty iff the error is
    empty. *)
Theorem put_result_two_states (self : config) (w : env) (blob : list Byte.byte)
    (mime : option pystr) (tags : option (list (pystr * pystr)))
    (k : option pystr) (s : fs_state) :
  exists res, fst (put self w blob mime tags k s) = inl res /\ two_state res.
Proof.
  destruct (put_shape self w blob mime tags k s)
    as [res [Hres [[err [Herr ->]] | (d & out & e & f & c & _ & _ & _ & _ & _ & Hc &
                                      Hs & Hcid & _ & He & _)]]].
  - exists (failure_result err). split; [exact Hres|].
    unfold two_state; cbn. split; split; try discriminate; intros H; contradiction.
  - exists res. split; [exact Hres|].
    unfold two_state. rewrite Hs, Hcid, He. tauto.
Qed.

(** C2: [put] never raises, whatever the subprocess and the filesystem
    do; a result with [success = true] only comes from a run where the
    directory was created, the payload written, and the CLI exited with
    code 0 printing a non-empty Root CID.  Every other path returns
    [success = false]. *)
Theorem put_never_raises (self : config) (w : env) (blob : list Byte.byte)
    (mime : option pystr) (tags : option (list (pystr * pystr)))
    (k : option pystr) (s : fs_state) :
  exists res, fst (put self w blob mime tags k s) = inl res /\
    (success res = true ->
     exists d out err f c,
       env_mkdtemp w = inl d /\
       env_write w (temp_path_of d mime) blob = None /\
       env_run w (build_command self (temp_path_of d mime)) = Completed 0 out err /\
       parse_cli_output out = inl f /\ root_cid f = Some c /\ c <> []).
Proof.
  destruct (put_shape self w blob mime tags k s)
    as [res [Hres [[err [Herr ->]] | (d & out & e & f & c & H1 & H2 & H3 & H4 & H5 & H6 & _)]]].
  - exists (failure_result err). split; [exact Hres | discriminate].
  - exists res. split; [exact Hres|]. intros _.
    exists d, out, e, f, c. tauto.
Qed.

(** C3: when, in the configured order, the gateways before [g] fail
    and [g] answers HTTP 200, [get] returns [g]'s body with its
    content-type, content-length and URL, and has requested exactly the
    gateways up to [g]. *)
Theorem get_first_success (net : pystr -> response) (uri : pystr)
    (pre : list pystr) (g : pystr) (post : list pystr)
    (headers : list (pystr * pystr)) (content : list Byte.byte) :
  gateway_urls (py_replace uri (s2p "ipfs://") []) = pre ++ g :: post ->
  forallb (gateway_fails net) pre = true ->
  net g = Response 200 headers content ->
  get (Some net) uri =
    (inl (content,
          [(s2p "content-type", opt_str (headers_get (s2p "Content-Type") headers));
           (s2p "content-length", opt_str (headers_get (s2p "Content-Length") headers));
           (s2p "gateway", PStr g)]),
     pre ++ [g]).
Proof.
  intros Hgw Hpre Hg. unfold get. rewrite Hgw.
  rewrite (try_gateways_first_success net pre g post headers content Hpre Hg).
  reflexivity.
Qed.

Definition uri_ex : pystr := s2p "ipfs://bafyex".

(** G1 answers 404, G2 answers 200, G3 and G4 are never asked. *)
Definition net_ex (url : pystr) : response :=
  if str_eqb url (s2p "https://gateway.pinata.cloud/ipfs/bafyex")
  then Response 200 [(s2p "Content-Type", s2p "text/plain")] [Byte.x42]
  else Response 404 [] [].

Lemma get_first_success_witness :
  get (Some net_ex) uri_ex =
    (inl ([Byte.x42],
          [(s2p "content-type", PStr (s2p "text/plain"));
           (s2p "content-length", PNone);
           (s2p "gateway", PStr (s2p "https://gateway.pinata.cloud/ipfs/bafyex"))]),
     [s2p "https://ipfs.io/ipfs/bafyex"; s2p "https://gateway.pinata.cloud/ipfs/bafyex"]).
Proof.
  apply (get_first_success net_ex uri_ex
           [s2p "https://ipfs.io/ipfs/bafyex"]
           (s2p "https://gateway.pinata.cloud/ipfs/bafyex")
           [s2p "https://cloudflare-ipfs.com/ipfs/bafyex"; s2p "https://dweb.link/ipfs/bafyex"]
           [(s2p "Content-Type", s2p "text/plain")] [Byte.x42]);
    vm_compute; reflexivity.
Defined.

(** A provider as built by [FilecoinPinStorageProvider()]. *)
Definition cfg_ex : config :=
  {| filecoin_pin_path := s2p "filecoin-pin"; auto_fund := true; bare := false;
     verbose := false; private_key := None |}.

Definition fs_ex : fs_state := {| dirs := []; files := [] |}.

Definition tmp_ex : pystr := s2p "/tmp/chaoschain_filecoin_pin_x1".

(** A disk that fills up while the payload is written. *)
Definition w_disk_full : env :=
  {| env_mkdtemp := inl tmp_ex;
     env_write := fun _ _ => Some (Exn (s2p "OSError") (s2p "[Errno 28] No space left on device"));
     env_run := fun _ => Completed 0 (s2p "Root CID: bafyex") [] |}.

(** C4 (failing input): when writing the payload file raises, [put]
    returns a failure result but the temporary directory it created is
    still there: the write happens before the [try]/[finally] that
    removes the directory. *)
Theorem put_write_error_keeps_temp_dir :
  put cfg_ex w_disk_full [Byte.x41] None None None fs_ex =
    (inl (failure_result (s2p "Storage error: [Errno 28] No space left on device")),
     {| dirs := [tmp_ex]; files := [] |}).
Proof. vm_compute. reflexivity. Qed.

(** C5: when the CLI exits with code 0 and no line of its output
    contains "Root CID:", [put] returns [success = false], an empty CID
    and the dedicated error message. *)
Theorem put_zero_exit_without_root_cid (self : config) (w : env)
    (blob : list Byte.byte) (mime : option pystr)
    (tags : option (list (pystr * pystr))) (k : option pystr) (s : fs_state)
    (d out err : pystr) :
  env_mkdtemp w = inl d ->
  env_write w (temp_path_of d mime) blob = None ->
  env_run w (build_command self (temp_path_of d mime)) = Completed 0 out err ->
  forallb no_root_line (splitlines out) = true ->
  exists res, fst (put self w blob mime tags k s) = inl res /\
    success res = false /\ cid res = [] /\
    error res = s2p "filecoin-pin completed without returning a Root CID" /\
    error res <> [].
Proof.
  intros Hmk Hw Hrun Hout.
  destruct (parse_cli_output_total out) as [f [Hp Hr]].
  specialize (Hr Hout).
  unfold put, try_except, try_finally, bind, mkdtemp, write_bytes,
    subprocess_run, lift, rmtree, ret.
  rewrite Hmk. fold (temp_path_of d mime). rewrite Hw, Hrun.
  cbn [Z.eqb]. rewrite Hp, Hr.
  eexists. split; [reflexivity|]. repeat split; cbn; discriminate.
Qed.

Definition w_no_root : env :=
  {| env_mkdtemp := inl tmp_ex;
     env_write := fun _ _ => None;
     env_run := fun _ => Completed 0 (s2p "Piece CID: bafkpiece") [] |}.

Lemma put_zero_exit_without_root_cid_witness :
  exists res, fst (put cfg_ex w_no_root [Byte.x41] None None None fs_ex) = inl res /\
    success res = false /\ cid res = [] /\
    error res = s2p "filecoin-pin completed without returning a Root CID" /\
    error res <> [].
Proof.
  apply (put_zero_exit_without_root_cid cfg_ex w_no_root [Byte.x41] None None None fs_ex
           tmp_ex (s2p "Piece CID: bafkpiece") []);
    vm_compute; reflexivity.
Defined.

(** C6: with the HTTP client available, [get] fails if and only if
    every configured gateway fails (non-200 status or an exception), and
    then it raises the aggregate error and returns no value. *)
Theorem get_fails_iff_all_gateways_fail (net : pystr -> response) (uri : pystr) :
  (forallb (gateway_fails net) (gateway_urls (py_replace uri (s2p "ipfs://") [])) = true
   <-> exists e, fst (get (Some net) uri) = inr e) /\
  (forallb (gateway_fails net) (gateway_urls (py_replace uri (s2p "ipfs://") [])) = true ->
   fst (get (Some net) uri) =
     inr (retrieval_error (s2p "Failed to retrieve from any IPFS gateway"))).
Proof.
  unfold get.
  pose proof (try_gateways_none net (gateway_urls (py_replace uri (s2p "ipfs://") [])))
    as Hn.
  destruct (try_gateways net (gateway_urls (py_replace uri (s2p "ipfs://") [])))
    as [[v|] tr]; cbn [fst] in *.
  - split.
    + split; [intros H; apply Hn in H; discriminate | intros [e He]; discriminate].
    + intros H. apply Hn in H. discriminate.
  - split.
    + split; [intros _; eauto | intros _; apply Hn; reflexivity].
    + intros _. reflexivity.
Qed.

Definition ipfs_scheme : pystr := s2p "ipfs://".

(** The comparison as the claim words it: strip one leading "ipfs://"
    (no-op when absent) from each string, then compare. *)
Definition strip_ipfs_prefix (x : pystr) : pystr :=
  if startswith x ipfs_scheme then skipn (length ipfs_scheme) x else x.

Definition verify_by_prefix (uri expected_hash : pystr) : bool :=
  str_eqb (strip_ipfs_prefix uri) (strip_ipfs_prefix expected_hash).

(** C7 (counterexample): [verify] removes every "ipfs://", not only a
    leading one: "aipfs://b" and "ab" are accepted although they differ
    after stripping a leading prefix. *)
Lemma verify_not_prefix_stripping :
  verify (s2p "aipfs://b") (s2p "ab") = true /\
  verify_by_prefix (s2p "aipfs://b") (s2p "ab") = false.
Proof. split; vm_compute; reflexivity. Qed.

(** An identifier, optionally written with the "ipfs://" scheme. *)
Definition with_scheme (b : bool) (c : pystr) : pystr :=
  if b then ipfs_scheme ++ c else c.

Lemma replace_with_scheme (b : bool) (c : pystr) :
  contains ipfs_scheme c = false -> py_replace (with_scheme b c) ipfs_scheme [] = c.
Proof.
  intros H. unfold py_replace.
  destruct b; cbn [with_scheme]; [change (replace_go ipfs_scheme [] O c = c)|];
    now apply replace_go_absent.
Qed.

(** C7 (amended): [verify] is true exactly when the strings are equal
    once every "ipfs://" is removed; for identifiers [c1], [c2] without
    "ipfs://" inside, each given with or without the leading scheme,
    this is the equality of [c1] and [c2], the prefix-stripping
    comparison; the three examples of the specification hold. *)
Theorem verify_identifier_equality (c1 c2 : pystr) (b1 b2 : bool) :
  contains ipfs_scheme c1 = false -> contains ipfs_scheme c2 = false ->
  (forall uri expected_hash,
     verify uri expected_hash = true <->
     py_replace uri ipfs_scheme [] = py_replace expected_hash ipfs_scheme []) /\
  verify (with_scheme b1 c1) (with_scheme b2 c2) = str_eqb c1 c2 /\
  verify (with_scheme b1 c1) (with_scheme b2 c2) =
    verify_by_prefix (with_scheme b1 c1) (with_scheme b2 c2) /\
  verify (s2p "ipfs://abc") (s2p "ipfs://abc") = true /\
  verify (s2p "abc") (s2p "ipfs://xyz") = false /\
  verify (s2p "ipfs://abc") (s2p "abc") = true.
Proof.
  intros H1 H2. split; [|split; [|split]]; [| | |vm_compute; repeat split].
  - intros u h. unfold verify, str_eqb. cbv zeta.
    fold ipfs_scheme. destruct (list_eq_dec N.eq_dec _ _); split; congruence.
  - unfold verify. fold ipfs_scheme. rewrite !replace_with_scheme by assumption.
    reflexivity.
  - unfold verify, verify_by_prefix. fold ipfs_scheme.
    rewrite !replace_with_scheme by assumption.
    assert (Hs : forall b c, strip_ipfs_prefix (with_scheme b c) =
                             if b then c else strip_ipfs_prefix c).
    { intros [|] c; reflexivity. }
    assert (Hn : forall c, contains ipfs_scheme c = false -> strip_ipfs_prefix c = c).
    { intros c Hc. unfold strip_ipfs_prefix.
      destruct (startswith c ipfs_scheme) eqn:E; [|reflexivity].
      apply startswith_spec in E as [b ->].
      exfalso. assert (contains ipfs_scheme (ipfs_scheme ++ b) = true) as Hc'
        by (apply contains_spec; exists [], b; reflexivity).
      congruence. }
    rewrite !Hs. destruct b1, b2; rewrite ?Hn by assumption; reflexivity.
Qed.

Lemma verify_identifier_equality_witness :
  verify (with_scheme true (s2p "bafyex")) (with_scheme false (s2p "bafyex")) = true.
Proof.
  destruct (verify_identifier_equality (s2p "bafyex") (s2p "bafyex") true false)
    as [_ [H _]]; [vm_compute; reflexivity | vm_compute; reflexivity |].
  rewrite H. vm_compute. reflexivity.
Defined.

(** Python's [d1 == d2] on dictionaries of plain values: the same keys
    bound to the same values, whatever the insertion order. *)
Definition dict_equal (d1 d2 : list (pystr * pyval)) : Prop :=
  forall k, dict_get k d1 = dict_get k d2.

Definition dict_ab : list (pystr * pyval) := [(s2p "a", PInt 1); (s2p "b", PInt 2)].
Definition dict_ba : list (pystr * pyval) := [(s2p "b", PInt 2); (s2p "a", PInt 1)].

(** C8 (counterexample): [{"a": 1, "b": 2}] and [{"b": 2, "a": 1}]
    are equal dictionaries, but [upload_json] serializes them to
    different bytes: [json.dumps] is called without [sort_keys] and
    writes keys in insertion order. *)
Lemma upload_json_key_order_counterexample :
  dict_equal dict_ab dict_ba /\ serialize_json dict_ab <> serialize_json dict_ba.
Proof.
  split.
  - intros k. cbn [dict_get dict_ab dict_ba]. unfold str_eqb.
    destruct (list_eq_dec N.eq_dec k (s2p "a")) as [Ha|Ha],
             (list_eq_dec N.eq_dec k (s2p "b")) as [Hb|Hb];
      try reflexivity.
    rewrite Ha in Hb. discriminate Hb.
  - vm_compute. intros H. discriminate H.
Qed.

(** C8 (amended): [upload_json] never raises; when the dictionary
    serializes, it stores those bytes through [put] with MIME
    application/json and the filename tag, and returns the CID if
    [put] succeeded and [None] otherwise; when serialization raises,
    it returns [None] without touching the filesystem. *)
Theorem upload_json_projection (self : config) (w : env)
    (data : list (pystr * pyval)) (filename : option pystr) (s : fs_state) :
  let fname := match filename with
               | Some f => str_or f (s2p "data.json")
               | None => s2p "data.json"
               end in
  exists o, fst (upload_json self w data filename s) = inl o /\
    match serialize_json data with
    | inr _ => o = None /\ snd (upload_json self w data filename s) = s
    | inl json_data =>
        exists res,
          put self w json_data (Some (s2p "application/json"))
              (Some [(s2p "filename", fname)]) None s
            = (inl res, snd (upload_json self w data filename s)) /\
          o = (if success res then Some (cid res) else None)
    end.
Proof.
  intros fname.
  unfold upload_json, try_except, bind, lift.
  destruct (serialize_json data) as [json_data | e].
  - destruct (put_shape self w json_data (Some (s2p "application/json"))
                (Some [(s2p "filename", fname)]) None s) as [res [Hres _]].
    subst fname.
    destruct (put self w json_data (Some (s2p "application/json")) _ None s)
      as [r s'] eqn:Hp.
    cbn [fst] in Hres. subst r.
    destruct (success res) eqn:Hs; unfold ret; cbn [fst snd].
    + eexists. split; [reflexivity|]. exists res. rewrite Hs. split; reflexivity.
    + eexists. split; [reflexivity|]. exists res. rewrite Hs. split; reflexivity.
  - unfold ret. cbn [fst snd]. eexists. split; [reflexivity|]. split; reflexivity.
Qed.

(** The CLI exits with code 1. *)
Definition w_exit1 : env :=
  {| env_mkdtemp := inl tmp_ex;
     env_write := fun _ _ => None;
     env_run := fun _ => Completed 1 [] (s2p "error: insufficient funds") |}.

(** C9 (counterexample): a failed [put] of a one-byte payload reports
    [size = 0], not the payload length 1. *)
Lemma put_failure_size_counterexample :
  fst (put cfg_ex w_exit1 [Byte.x41] None None None fs_ex) =
    inl (failure_result (s2p "error: insufficient funds")) /\
  size (failure_result (s2p "error: insufficient funds")) = 0%Z /\
  size (failure_result (s2p "error: insufficient funds")) <> Z.of_nat (length [Byte.x41]).
Proof. split; [vm_compute; reflexivity | split; [reflexivity | discriminate]]. Qed.

(** C9 (amended): the result of [put] carries the payload length on
    success and [0] on failure. *)
Theorem put_size_on_success (self : config) (w : env) (blob : list Byte.byte)
    (mime : option pystr) (tags : option (list (pystr * pystr)))
    (k : option pystr) (s : fs_state) :
  exists res, fst (put self w blob mime tags k s) = inl res /\
    size res = (if success res then Z.of_nat (length blob) else 0%Z).
Proof.
  destruct (put_shape self w blob mime tags k s)
    as [res [Hres [[err [_ ->]] | (d & out & e & f & c & _ & _ & _ & _ & _ & _ &
                                   Hs & _ & _ & _ & Hsz)]]].
  - exists (failure_result err). split; [exact Hres | reflexivity].
  - exists res. split; [exact Hres|]. rewrite Hs. exact Hsz.
Qed.

(** C10: the [idempotency_key] argument has no influence on [put]: for
    the same environment and filesystem, the command run, the files
    written and the result are the same for any two keys. *)
Theorem put_ignores_idempotency_key (self : config) (w : env)
    (blob : list Byte.byte) (mime : option pystr)
    (tags : option (list (pystr * pystr))) (k1 k2 : option pystr) :
  put self w blob mime tags k1 = put self w blob mime tags k2.
Proof. reflexivity. Qed.

End Claims.

(** ** Further properties of the provider and its callers *)
Module Extras.
Import StrFacts PutFacts GetFacts Agent.

Lemma str_eqb_refl (x : pystr) : str_eqb x x = true.
Proof. unfold str_eqb. destruct (list_eq_dec N.eq_dec x x); congruence. Qed.

Lemma str_eqb_true (x y : pystr) : str_eqb x y = true -> x = y.
Proof. unfold str_eqb. destruct (list_eq_dec N.eq_dec x y); congruence. Qed.

Lemma filter_keep {A} (f : A -> bool) (l : list A) :
  (forall x, In x l -> f x = true) -> filter f l = l.
Proof.
  induction l as [|x l IH]; intros H; [reflexivity|]. cbn.
  rewrite (H x (or_introl eq_refl)), IH; [reflexivity|].
  intros y Hy. apply H. now right.
Qed.

(** [d] names no existing directory, and no existing file lies under it. *)
Definition fresh_dir (d : pystr) (s : fs_state) : bool :=
  negb (existsb (str_eqb d) (dirs s)) &&
  forallb (fun f => negb (startswith (fst f) (d ++ s2p "/"))) (files s).

Ltac put_unfold :=
  unfold put, try_except, try_finally, bind, mkdtemp, write_bytes,
    subprocess_run, lift, rmtree, ret.

(** A successful [put] returns the [ipfs://] URI of its CID, the CID as
    hash, the dweb.link view URL ending in the payload filename chosen
    from the MIME type, and records that filename, the MIME type and
    the tags in its metadata; every result names the provider
    "filecoin-pin". *)
Theorem put_success_fields (self : config) (w : env) (blob : list Byte.byte)
    (mime : option pystr) (tags : option (list (pystr * pystr)))
    (k : option pystr) (s : fs_state) :
  exists res, fst (put self w blob mime tags k s) = inl res /\
    provider res = s2p "filecoin-pin" /\
    (success res = true ->
     uri res = s2p "ipfs://" ++ cid res /\
     hash res = cid res /\
     view_url res = s2p "https://" ++ cid res ++ s2p ".ipfs.dweb.link/"
                    ++ filename_for_mime mime /\
     dict_get (s2p "payload_filename") (metadata res) = Some (PStr (filename_for_mime mime)) /\
     dict_get (s2p "mime_type") (metadata res) = Some (opt_str mime) /\
     dict_get (s2p "tags") (metadata res) = Some (tags_value tags)).
Proof.
  destruct (put_shape self w blob mime tags k s)
    as [res [Hres [[err [_ ->]] | (d & out & e & f & c & Hmk & Hw & Hrun & Hp & Hr & Hc & _ & _ & _ & _ & _)]]].
  - exists (failure_result err). split; [exact Hres|]. split; [reflexivity | discriminate].
  - revert Hres. put_unfold.
    rewrite Hmk. fold (temp_path_of d mime). rewrite Hw, Hrun. cbn [Z.eqb].
    rewrite Hp, Hr. destruct c as [|c0 cs]; [contradiction|].
    cbn [fst]. intros Hres. injection Hres as <-.
    eexists. split; [reflexivity|]. split; [reflexivity|]. intros _.
    cbn [uri hash cid view_url metadata].
    repeat split; reflexivity.
Qed.

(** When the temporary directory [mkdtemp] creates is fresh and the
    payload write succeeds, [put] leaves the filesystem exactly as it
    found it, whatever the CLI does (success, failure, timeout,
    exception). *)
Theorem put_leaves_fs_unchanged (self : config) (w : env) (blob : list Byte.byte)
    (mime : option pystr) (tags : option (list (pystr * pystr)))
    (k : option pystr) (s : fs_state) :
  (forall d, env_mkdtemp w = inl d ->
             fresh_dir d s = true /\ env_write w (temp_path_of d mime) blob = None) ->
  snd (put self w blob mime tags k s) = s.
Proof.
  intros H. put_unfold.
  destruct (env_mkdtemp w) as [d | e] eqn:Hmk.
  2:{ destruct e; reflexivity. }
  destruct (H d eq_refl) as [Hfresh Hw]. clear H.
  fold (temp_path_of d mime). rewrite Hw.
  assert (Hfs : {| dirs := filter (fun x => negb (str_eqb x d)) (d :: dirs s);
                   files := filter (fun f => negb (startswith (fst f) (d ++ s2p "/")))
                                   ((temp_path_of d mime, blob) :: files s) |} = s).
  { apply andb_true_iff in Hfresh as [Hd Hf].
    apply negb_true_iff in Hd. rewrite forallb_forall in Hf.
    destruct s as [ds fs]. cbn in *. rewrite str_eqb_refl.
    assert (Hpre : startswith (temp_path_of d mime) (d ++ [47]) = true).
    { apply startswith_spec. exists (filename_for_mime mime).
      unfold temp_path_of. now rewrite <- app_assoc. }
    rewrite Hpre. cbn [negb].
    f_equal; apply filter_keep.
    - intros x Hx. apply negb_true_iff. destruct (str_eqb x d) eqn:E; [|reflexivity].
      apply str_eqb_true in E. subst x.
      assert (existsb (str_eqb d) ds = true) as Hc
        by (apply existsb_exists; exists d; split; [exact Hx | apply str_eqb_refl]).
      congruence.
    - exact Hf. }
  destruct (env_run w (build_command self (temp_path_of d mime))) as [rc out err | e].
  - destruct (Z.eqb rc 0).
    + destruct (parse_cli_output out) as [f | e].
      * destruct (root_cid f) as [[|c cs]|]; exact Hfs.
      * destruct e; exact Hfs.
    + exact Hfs.
  - destruct e; exact Hfs.
Qed.

Definition w_ok : env :=
  {| env_mkdtemp := inl (s2p "/tmp/chaoschain_filecoin_pin_x1");
     env_write := fun _ _ => None;
     env_run := fun _ => Completed 0 (s2p "Root CID: bafyex") [] |}.

Lemma put_leaves_fs_unchanged_witness :
  snd (put Claims.cfg_ex w_ok [Byte.x41] None None None
           {| dirs := [s2p "/home"]; files := [] |}) =
    {| dirs := [s2p "/home"]; files := [] |}.
Proof.
  apply put_leaves_fs_unchanged. intros d Hd. cbn in Hd. injection Hd as <-.
  split; vm_compute; reflexivity.
Defined.

(** Once the payload is staged, the error text of a failed [put] tells
    the failures apart: the fixed timeout message, the stripped
    standard error of a non-zero exit (or a generic fallback when it is
    blank), and "Storage error: " followed by the text of any other
    exception. *)
Theorem put_error_messages (self : config) (w : env) (blob : list Byte.byte)
    (mime : option pystr) (tags : option (list (pystr * pystr)))
    (k : option pystr) (s : fs_state) (d : pystr) :
  env_mkdtemp w = inl d ->
  env_write w (temp_path_of d mime) blob = None ->
  (env_run w (build_command self (temp_path_of d mime)) = RunRaised TimeoutExpired ->
   fst (put self w blob mime tags k s) =
     inl (failure_result (s2p "filecoin-pin command timed out after 5 minutes"))) /\
  (forall rc out err,
     env_run w (build_command self (temp_path_of d mime)) = Completed rc out err ->
     rc <> 0%Z ->
     fst (put self w blob mime tags k s) =
       inl (failure_result (str_or (strip err) (s2p "filecoin-pin command failed")))) /\
  (forall t m,
     env_run w (build_command self (temp_path_of d mime)) = RunRaised (Exn t m) ->
     fst (put self w blob mime tags k s) =
       inl (failure_result (s2p "Storage error: " ++ m))).
Proof.
  intros Hmk Hw. put_unfold. rewrite Hmk. fold (temp_path_of d mime). rewrite Hw.
  repeat split.
  - intros Hrun. rewrite Hrun. reflexivity.
  - intros rc out err Hrun Hrc. rewrite Hrun.
    apply Z.eqb_neq in Hrc. rewrite Hrc. reflexivity.
  - intros t m Hrun. rewrite Hrun. reflexivity.
Qed.

Lemma put_error_messages_witness :
  fst (put Claims.cfg_ex
           {| env_mkdtemp := inl (s2p "/tmp/chaoschain_filecoin_pin_x1");
              env_write := fun _ _ => None;
              env_run := fun _ => RunRaised TimeoutExpired |}
           [Byte.x41] None None None Claims.fs_ex) =
    inl (failure_result (s2p "filecoin-pin command timed out after 5 minutes")).
Proof.
  apply (put_error_messages Claims.cfg_ex
           {| env_mkdtemp := inl (s2p "/tmp/chaoschain_filecoin_pin_x1");
              env_write := fun _ _ => None;
              env_run := fun _ => RunRaised TimeoutExpired |}
           [Byte.x41] None None None Claims.fs_ex (s2p "/tmp/chaoschain_filecoin_pin_x1"));
    reflexivity.
Defined.

(** *** The output parser *)

Lemma startswith_app_long (sep x y : pystr) :
  (length sep <= length x)%nat -> startswith (x ++ y) sep = startswith x sep.
Proof.
  revert x; induction sep as [|p pr IH]; intros x Hl; [reflexivity|].
  destruct x as [|c r]; cbn in Hl; [lia|].
  cbn [app startswith]. rewrite IH; [reflexivity | lia].
Qed.

Lemma split_go_skip (sep x y : pystr) :
  split_go sep (length x) (x ++ y) = split_go sep O y.
Proof. induction x as [|c r IH]; [reflexivity | exact IH]. Qed.

Lemma split_go_absent (sep v : pystr) :
  contains sep v = false -> split_go sep O v = [v].
Proof.
  induction v as [|c r IH]; intros H; [reflexivity|].
  cbn [contains] in H. apply orb_false_iff in H as [H1 H2].
  cbn [split_go]. rewrite H1, (IH H2). reflexivity.
Qed.

(** [split] cuts at the first occurrence of the separator. *)
Lemma split_go_first (sep pre v : pystr) :
  sep <> [] -> contains sep (pre ++ removelast sep) = false ->
  split_go sep O (pre ++ sep ++ v) = pre :: split_go sep O v.
Proof.
  intros Hsep. induction pre as [|c p IH]; intros H.
  - destruct sep as [|s0 sr]; [contradiction|].
    cbn [app split_go]. replace (startswith (s0 :: sr ++ v) (s0 :: sr)) with true.
    + cbn [length pred]. rewrite split_go_skip. reflexivity.
    + symmetry. apply startswith_spec. now exists v.
  - cbn [app contains] in H. apply orb_false_iff in H as [H1 H2].
    cbn [app split_go].
    assert (Hsplit := app_removelast_last 0 Hsep).
    assert (Hlen : length sep = S (length (removelast sep))).
    { rewrite Hsplit at 1. rewrite length_app. cbn. lia. }
    replace (startswith (c :: p ++ sep ++ v) sep) with false.
    + rewrite (IH H2). reflexivity.
    + rewrite Hsplit at 1.
      replace (c :: p ++ (removelast sep ++ [last sep 0]) ++ v)
        with ((c :: p ++ removelast sep) ++ ([last sep 0] ++ v))
        by (cbn; now rewrite <- !app_assoc).
      rewrite startswith_app_long; [now rewrite H1|].
      cbn. rewrite length_app. lia.
Qed.

Lemma parse_lines_app (acc : cli_fields) (l1 l2 : list pystr) :
  parse_lines acc (l1 ++ l2) =
    match parse_lines acc l1 with Some a => parse_lines a l2 | None => None end.
Proof.
  revert acc; induction l1 as [|line rest IH]; intros acc; [reflexivity|].
  cbn [app parse_lines].
  match goal with |- match ?st with _ => _ end = _ => destruct st end;
    [apply IH | reflexivity].
Qed.

Definition root_label : pystr := s2p "Root CID:".


Definition cli_output_ex : pystr :=
  s2p "Uploading" ++ [10] ++ s2p "  Root CID: bafyroot " ++ [10] ++
  s2p "  Piece CID: bagapiece" ++ [10].


Lemma paren_group_spec (s g : pystr) :
  paren_group s = Some g -> ~ In 41 g /\ exists rest, s = g ++ 41 :: rest.
Proof.
  revert g; induction s as [|c r IH]; intros g H; cbn [paren_group] in H;
    [discriminate|].
  destruct (N.eqb_spec c 41) as [-> | Hc].
  - injection H as <-. split; [intros []|]. now exists r.
  - destruct (paren_group r) as [g'|] eqn:E; [|discriminate].
    cbn in H. injection H as <-.
    destruct (IH g' eq_refl) as [Hn [rest ->]]. split.
    + intros [Hx | Hx]; [congruence | contradiction].
    + now exists rest.
Qed.



(** *** Retrieval and verification *)

(** [get] strips the [ipfs://] scheme: asking for the URI or for the
    bare CID makes the same requests and gives the same outcome. *)
Theorem get_ignores_scheme (requests : option (pystr -> response)) (c : pystr) :
  get requests (s2p "ipfs://" ++ c) = get requests c.
Proof. reflexivity. Qed.

Lemma try_gateways_prefix (net : pystr -> response) (gws : list pystr) :
  exists n, snd (try_gateways net gws) = firstn n gws.
Proof.
  induction gws as [|u rest [n IH]]; cbn [try_gateways].
  - now exists O.
  - destruct (net u) as [code hs c|e].
    + destruct (Z.eqb code 200).
      * now exists 1%nat.
      * destruct (try_gateways net rest) as [r tr]. exists (S n). cbn in *. now rewrite IH.
    + destruct (try_gateways net rest) as [r tr]. exists (S n). cbn in *. now rewrite IH.
Qed.

Lemma try_gateways_head (net : pystr -> response) (u : pystr) (rest : list pystr) :
  exists n, snd (try_gateways net (u :: rest)) = firstn (S n) (u :: rest).
Proof.
  destruct (try_gateways_prefix net rest) as [n Hn].
  cbn [try_gateways]. destruct (net u) as [code hs c|e].
  - destruct (Z.eqb code 200).
    + now exists O.
    + destruct (try_gateways net rest) as [r tr]. exists n. cbn in *. now rewrite Hn.
  - destruct (try_gateways net rest) as [r tr]. exists n. cbn in *. now rewrite Hn.
Qed.


Lemma try_gateways_trace_nonempty (net : pystr -> response) (gws : list pystr) :
  gws <> [] -> snd (try_gateways net gws) <> [].
Proof.
  destruct gws as [|u rest]; [contradiction|]. intros _.
  destruct (try_gateways_head net u rest) as [n ->]. discriminate.
Qed.

Lemma try_gateways_some (net : pystr -> response) (gws : list pystr)
    (content : list Byte.byte) (meta : list (pystr * pyval)) :
  fst (try_gateways net gws) = Some (content, meta) ->
  exists g headers, In g gws /\ last (snd (try_gateways net gws)) [] = g /\
    net g = Response 200 headers content /\
    dict_get (s2p "gateway") meta = Some (PStr g).
Proof.
  induction gws as [|u rest IH]; intros H; [discriminate|].
  assert (Hrest : fst (try_gateways net rest) = Some (content, meta) ->
                  exists g headers, In g (u :: rest) /\
                    last (u :: snd (try_gateways net rest)) [] = g /\
                    net g = Response 200 headers content /\
                    dict_get (s2p "gateway") meta = Some (PStr g)).
  { intros Hr. destruct (IH Hr) as (g & h & Hin & Hl & Hg & Hm).
    exists g, h. repeat split; [now right | | exact Hg | exact Hm].
    rewrite <- Hl.
    destruct rest as [|x rest']; [discriminate|].
    pose proof (try_gateways_trace_nonempty net (x :: rest') ltac:(discriminate)) as Hne.
    destruct (snd (try_gateways net (x :: rest'))); [contradiction | reflexivity]. }
  revert H. cbn [try_gateways].
  destruct (net u) as [code hs c|e] eqn:Hu.
  - destruct (Z.eqb_spec code 200) as [-> | Hc].
    + cbn [fst]. intros H. injection H as <- <-.
      exists u, hs. repeat split; [now left | exact Hu].
    + destruct (try_gateways net rest) as [r tr]. exact Hrest.
  - destruct (try_gateways net rest) as [r tr]. exact Hrest.
Qed.

(** The content [get] returns is the body of the last gateway it
    requested, one of the four gateway URLs for the CID, which answered
    200, and the metadata names that gateway. *)
Theorem get_success_source (net : pystr -> response) (uri : pystr)
    (content : list Byte.byte) (meta : list (pystr * pyval)) :
  fst (get (Some net) uri) = inl (content, meta) ->
  exists g headers,
    In g (gateway_urls (py_replace uri (s2p "ipfs://") [])) /\
    last (snd (get (Some net) uri)) [] = g /\
    net g = Response 200 headers content /\
    dict_get (s2p "gateway") meta = Some (PStr g).
Proof.
  unfold get.
  destruct (try_gateways net (gateway_urls (py_replace uri (s2p "ipfs://") [])))
    as [[v|] tr] eqn:Ht; cbn [fst snd]; intros H; [|discriminate].
  injection H as ->.
  destruct (try_gateways_some net (gateway_urls (py_replace uri (s2p "ipfs://") []))
              content meta) as (g & h & Hin & Hl & Hg & Hm); [now rewrite Ht|].
  rewrite Ht in Hl. cbn [snd] in Hl. eauto 7.
Qed.

Lemma get_success_source_witness :
  exists g headers,
    In g (gateway_urls (py_replace Claims.uri_ex (s2p "ipfs://") [])) /\
    last (snd (get (Some Claims.net_ex) Claims.uri_ex)) [] = g /\
    Claims.net_ex g = Response 200 headers [Byte.x42] /\
    dict_get (s2p "gateway")
      [(s2p "content-type", PStr (s2p "text/plain"));
       (s2p "content-length", PNone);
       (s2p "gateway", PStr (s2p "https://gateway.pinata.cloud/ipfs/bafyex"))] =
      Some (PStr g).
Proof. apply get_success_source. vm_compute. reflexivity. Defined.

(** A result [put] reports as successful passes the check of the test
    script: [verify(result.uri, result.cid)] holds. *)
Theorem put_then_verify (self : config) (w : env) (blob : list Byte.byte)
    (mime : option pystr) (tags : option (list (pystr * pystr)))
    (k : option pystr) (s : fs_state) :
  exists res, fst (put self w blob mime tags k s) = inl res /\
    (success res = true -> verify (uri res) (cid res) = true).
Proof.
  destruct (put_shape self w blob mime tags k s)
    as [res [Hres [[err [_ ->]] | (d & out & e & f & c & _ & _ & _ & _ & _ & _ &
                                   _ & Hc & Hu & _ & _)]]].
  - exists (failure_result err). split; [exact Hres | discriminate].
  - exists res. split; [exact Hres|]. intros _. rewrite Hu, Hc.
    unfold verify. apply str_eqb_refl.
Qed.

(** *** Construction of the provider *)

Definition version_ok (path : pystr) (run : list pystr -> run_outcome) : Prop :=
  exists stdout stderr, run [path; s2p "--version"] = Completed 0 stdout stderr.

(** The constructor returns the configured instance exactly when
    [<path> --version] exits with status 0; when it fails, the error is
    a [RuntimeError] (with the path named for a missing executable),
    except that an exception of [subprocess.run] other than
    [FileNotFoundError] and the timeout propagates unchanged. *)
Theorem init_outcome (path : pystr) (af b v : bool) (pk : option pystr)
    (run : list pystr -> run_outcome) :
  match init path af b v pk run with
  | inl cfg =>
      version_ok path run /\
      cfg = {| filecoin_pin_path := path; auto_fund := af; bare := b;
               verbose := v; private_key := pk |}
  | inr e =>
      ~ version_ok path run /\
      ((exists m, run [path; s2p "--version"] = RunRaised (Exn (s2p "FileNotFoundError") m) /\
                  e = runtime_error (s2p "filecoin-pin not found at path: " ++ path)) \/
       (exists msg, e = runtime_error msg) \/
       (exists t m, run [path; s2p "--version"] = RunRaised (Exn t m) /\
                    t <> s2p "FileNotFoundError" /\ e = Exn t m))
  end.
Proof.
  unfold init, verify_filecoin_pin, version_ok. cbn [filecoin_pin_path].
  destruct (run [path; s2p "--version"]) as [rc out err | [|t m]] eqn:Hrun.
  - destruct (Z.eqb_spec rc 0) as [-> | Hrc].
    + split; [eauto | reflexivity].
    + split.
      * intros (o & e' & H). injection H as H _ _. contradiction.
      * right. left. eauto.
  - split; [intros (o & e' & H); discriminate | right; left; eauto].
  - destruct (str_eqb t (s2p "FileNotFoundError")) eqn:E;
      (split; [intros (o & e' & H); discriminate|]).
    + apply str_eqb_true in E. subst t. left. eauto.
    + right. right. exists t, m. repeat split.
      intros ->. rewrite str_eqb_refl in E. discriminate.
Qed.

(** Whether a flag of [create_sdk] is on: [os.getenv(name, default)
    .lower() == "true"]. *)
Definition env_flag (e : environ) (name : pystr) (default_on : bool) : bool :=
  match getenv e name with
  | None => default_on
  | Some value => lower_is_true value
  end.

(** The provider built by [create_sdk] exists exactly when the CLI at
    [FILECOIN_PIN_PATH] (default "filecoin-pin") passes its version
    check; the [add] command it then runs carries [--auto-fund] unless
    FILECOIN_PIN_AUTO_FUND is set to something other than "true" (in any
    case), [--bare] and [--verbose] only when their variables are
    "true", and the private key only when it is set and non-empty.
    Otherwise [create_sdk] exits with status 1. *)
Theorem create_storage_provider_spec (e : environ) (run : list pystr -> run_outcome) :
  let path := getenv_default e (s2p "FILECOIN_PIN_PATH") (s2p "filecoin-pin") in
  match create_storage_provider e run with
  | inl p =>
      version_ok path run /\
      forall temp_path,
        build_command p temp_path =
          [path; s2p "add"; temp_path]
          ++ (if env_flag e (s2p "FILECOIN_PIN_AUTO_FUND") true
              then [s2p "--auto-fund"] else [])
          ++ (if env_flag e (s2p "FILECOIN_PIN_BARE") false then [s2p "--bare"] else [])
          ++ (if env_flag e (s2p "FILECOIN_PIN_VERBOSE") false
              then [s2p "--verbose"] else [])
          ++ (match getenv e (s2p "FILECOIN_CALIBRATION_PRIVATE_KEY") with
              | Some (_ :: _ as k) => [s2p "--private-key"; k]
              | _ => []
              end)
  | inr x => x = system_exit /\ ~ version_ok path run
  end.
Proof.
  intros path. unfold create_storage_provider. fold path.
  assert (Hd : forall name d, lower_is_true (getenv_default e name (s2p d)) =
                              env_flag e name (lower_is_true (s2p d))).
  { intros name d. unfold getenv_default, env_flag, getenv.
    destruct (dict_get name e); reflexivity. }
  rewrite !Hd.
  change (lower_is_true (s2p "true")) with true.
  change (lower_is_true (s2p "false")) with false.
  match goal with |- context [init ?pa ?af ?b ?v ?pk run] =>
    pose proof (init_outcome pa af b v pk run) as H;
    destruct (init pa af b v pk run) as [cfg | x] end.
  - destruct H as [Hv ->]. split; [exact Hv|]. intros t. reflexivity.
  - split; [reflexivity | apply H].
Qed.

(** *** The agent's content check *)

(** [verify_ipfs_content] answers [True] exactly when the CID is
    non-empty and filecoinpin.contact answers 200 for it; it makes no
    request for an empty CID and one request otherwise, and the only
    exceptions it lets escape are those outside [RequestException]. *)
Theorem verify_ipfs_content_spec (net : pystr -> response) (c : pystr) :
  (fst (verify_ipfs_content net c) = inl true <->
     c <> [] /\ exists headers content, net (contact_url_of c) = Response 200 headers content) /\
  snd (verify_ipfs_content net c) = (match c with [] => [] | _ => [contact_url_of c] end) /\
  (forall x, fst (verify_ipfs_content net c) = inr x ->
     net (contact_url_of c) = RequestRaised x /\ is_request_exception x = false).
Proof.
  unfold verify_ipfs_content. destruct c as [|c0 cs].
  - split; [|split; [reflexivity|]].
    + split; [discriminate | intros [H _]; contradiction].
    + intros x H. discriminate.
  - destruct (net (contact_url_of (c0 :: cs))) as [code hs body | x] eqn:Hn.
    + split; [|split; [reflexivity | intros x H; discriminate]].
      cbn [fst]. split.
      * intros H. injection H as H. apply Z.eqb_eq in H. subst code.
        split; [discriminate | eauto].
      * intros [_ (h & b & H)]. injection H as -> _ _. reflexivity.
    + destruct (is_request_exception x) eqn:Ex.
      * split; [|split; [reflexivity | intros y H; discriminate]].
        split; [discriminate | intros [_ (h & b & H)]; discriminate].
      * split; [|split; [reflexivity|]].
        -- split; [discriminate | intros [_ (h & b & H)]; discriminate].
        -- intros y H. injection H as <-. split; [reflexivity | exact Ex].
Qed.

(** *** [upload_json] *)

(** [upload_json] never raises and never reports an empty CID; when the
    data cannot be serialized it returns [None] without touching the
    filesystem. *)
Theorem upload_json_outcome (self : config) (w : env) (data : list (pystr * pyval))
    (filename : option pystr) (s : fs_state) :
  (exists o, fst (upload_json self w data filename s) = inl o /\
             forall c, o = Some c -> c <> []) /\
  (forall x, serialize_json data = inr x -> upload_json self w data filename s = (inl None, s)).
Proof.
  split.
  - unfold upload_json, try_except, bind, lift, ret.
    destruct (serialize_json data) as [json | x].
    + match goal with |- context [put self w json ?m ?t None s] =>
        destruct (put_shape self w json m t None s)
          as [res [Hres [[err [_ ->]] | (d & out & e & f & c & _ & _ & _ & _ & _ & Hc &
                                         Hs & Hcid & _ & _ & _)]]];
        destruct (put self w json m t None s) as [[r | x] s'] end;
        cbn [fst] in Hres; try discriminate; injection Hres as ->.
      * eexists. split; [reflexivity | intros c H; discriminate].
      * rewrite Hs. eexists. split; [reflexivity|]. intros c' H.
        injection H as <-. rewrite Hcid. exact Hc.
    + destruct x; eexists; (split; [reflexivity | intros c H; discriminate]).
  - intros x Hx. unfold upload_json, try_except, bind, lift, ret.
    rewrite Hx. destruct x; reflexivity.
Qed.

(** *** JSON serialization *)

(** Values made only of [None], booleans, integers, strings, lists and
    dictionaries: no object [json.dumps] rejects. *)
Fixpoint json_plain (v : pyval) : bool :=
  match v with
  | PObj _ => false
  | PList l => forallb json_plain l
  | PDict d => forallb (fun kv => json_plain (snd kv)) d
  | _ => true
  end.

Definition pyval_ind_nested (P : pyval -> Prop)
    (HN : P PNone) (HB : forall b, P (PBool b)) (HI : forall z, P (PInt z))
    (HS : forall s, P (PStr s)) (HL : forall l, Forall P l -> P (PList l))
    (HD : forall d, Forall (fun kv => P (snd kv)) d -> P (PDict d))
    (HO : forall t, P (PObj t)) : forall v, P v :=
  fix go (v : pyval) : P v :=
    match v return P v with
    | PNone => HN
    | PBool b => HB b
    | PInt z => HI z
    | PStr s => HS s
    | PList l =>
        HL l ((fix gol (l : list pyval) : Forall P l :=
                 match l return Forall P l with
                 | [] => Forall_nil P
                 | x :: r => Forall_cons x (go x) (gol r)
                 end) l)
    | PDict d =>
        HD d ((fix god (d : list (pystr * pyval)) : Forall (fun kv => P (snd kv)) d :=
                 match d return Forall (fun kv => P (snd kv)) d with
                 | [] => Forall_nil _
                 | (k, x) :: r => @Forall_cons _ (fun kv => P (snd kv)) (k, x) r (go x) (god r)
                 end) d)
    | PObj t => HO t
    end.

Definition ascii_cp (c : N) : Prop := c < 128.

Lemma hex4_ascii (n : N) : Forall ascii_cp (Json.hex4 n).
Proof.
  unfold Json.hex4, Json.hexdigit, ascii_cp.
  repeat constructor;
    match goal with |- (if ?x <? 10 then _ else _) < 128 =>
      pose proof (N.land_le_r (N.shiftr n 0) 15);
      pose proof (N.land_le_r (N.shiftr n 4) 15);
      pose proof (N.land_le_r (N.shiftr n 8) 15);
      pose proof (N.land_le_r (N.shiftr n 12) 15);
      destruct (x <? 10); lia end.
Qed.

Lemma escape_char_ascii (c : N) : Forall ascii_cp (Json.escape_char c).
Proof.
  unfold Json.escape_char.
  repeat match goal with |- context [if ?b then _ else _] => destruct b eqn:? end;
    repeat (apply Forall_app; split);
    try apply hex4_ascii;
    repeat constructor; unfold ascii_cp; try lia.
  match goal with H : (32 <=? c) && (c <=? 126) = true |- _ =>
    apply andb_true_iff in H as [_ H]; apply N.leb_le in H; lia end.
Qed.

Lemma encode_basestring_ascii_ascii (s : pystr) :
  Forall ascii_cp (Json.encode_basestring_ascii s).
Proof.
  unfold Json.encode_basestring_ascii. constructor; [unfold ascii_cp; lia|].
  apply Forall_app. split; [|constructor; [unfold ascii_cp; lia | constructor]].
  induction s as [|c r IH]; [constructor|]. cbn [flat_map].
  apply Forall_app. split; [apply escape_char_ascii | exact IH].
Qed.

Lemma int_str_ascii (z : Z) : Forall ascii_cp (int_str z).
Proof.
  assert (Hu : forall u, Forall ascii_cp (uint_digits u)).
  { induction u; cbn [uint_digits]; constructor; try exact IHu; unfold ascii_cp; lia. }
  unfold int_str. destruct z; [apply Hu | apply Hu | constructor; [unfold ascii_cp; lia | apply Hu]].
Qed.

Lemma indent_ascii (level : nat) : Forall ascii_cp (Json.indent level).
Proof.
  unfold Json.indent. apply Forall_forall. intros x Hx.
  apply repeat_spec in Hx. subst x. unfold ascii_cp. lia.
Qed.

Lemma ascii_by_check (s : pystr) :
  forallb (fun c => c <? 128) s = true -> Forall ascii_cp s.
Proof.
  intros H. apply Forall_forall. intros c Hc. rewrite forallb_forall in H.
  apply N.ltb_lt, H, Hc.
Qed.

Create HintDb json_ascii.

#[local] Hint Resolve hex4_ascii escape_char_ascii encode_basestring_ascii_ascii
  int_str_ascii indent_ascii : json_ascii.

Ltac ascii_list :=
  repeat first [ solve [eauto with json_ascii] | apply Forall_app; split
               | apply Forall_cons | apply Forall_nil | unfold ascii_cp; lia ].

Lemma iterencode_ascii (v : pyval) :
  forall level, json_plain v = true ->
  exists s, Json.iterencode level v = inl s /\ Forall ascii_cp s.
Proof.
  induction v as [| b | z | str | l IHl | d IHd | t] using pyval_ind_nested;
    intros level H.
  - eexists. split; [reflexivity | apply ascii_by_check; reflexivity].
  - destruct b; eexists; (split; [reflexivity | apply ascii_by_check; reflexivity]).
  - eexists. split; [reflexivity | apply int_str_ascii].
  - eexists. split; [reflexivity | apply encode_basestring_ascii_ascii].
  - destruct l as [|x l']; [eexists; split; [reflexivity | apply ascii_by_check; reflexivity]|].
    cbn [json_plain forallb] in H. apply andb_true_iff in H as [Hx Hl'].
    inversion IHl as [|? ? IHx IHl']; subst.
    cbn [Json.iterencode].
    match goal with |- context [?F false l'] =>
      assert (Hitems : forall first (l0 : list pyval), Forall (fun v =>
                 forall level, json_plain v = true ->
                 exists s, Json.iterencode level v = inl s /\ Forall ascii_cp s) l0 ->
               forallb json_plain l0 = true ->
               exists body, F first l0 = inl body /\ Forall ascii_cp body);
      [| destruct (Hitems false l' IHl' Hl') as [body [-> Hb]] ] end.
    2:{ destruct (IHx (S level) Hx) as [a [-> Ha]].
        eexists. split; [reflexivity | ascii_list]. }
    intros first l0 Hl0 Hp. revert first.
    induction l0 as [|y ys IH]; intros first; [eexists; split; [reflexivity | constructor]|].
    inversion Hl0 as [|? ? Hy Hys]; subst.
    cbn [forallb] in Hp. apply andb_true_iff in Hp as [Hpy Hpys].
    destruct (Hy (S level) Hpy) as [a [Ha Ha']].
    destruct (IH Hys Hpys false) as [bd [Hbd Hbd']].
    cbn -[Json.indent Json.iterencode]. rewrite Ha, Hbd.
    eexists. split; [reflexivity|]. destruct first; ascii_list.
  - destruct d as [|[k0 x] d']; [eexists; split; [reflexivity | apply ascii_by_check; reflexivity]|].
    cbn [json_plain forallb snd] in H. apply andb_true_iff in H as [Hx Hd'].
    inversion IHd as [|? ? IHx IHd']; subst. cbn [snd] in IHx.
    cbn [Json.iterencode].
    match goal with |- context [?F false d'] =>
      assert (Hitems : forall first (d0 : list (pystr * pyval)), Forall (fun kv =>
                 forall level, json_plain (snd kv) = true ->
                 exists s, Json.iterencode level (snd kv) = inl s /\ Forall ascii_cp s) d0 ->
               forallb (fun kv => json_plain (snd kv)) d0 = true ->
               exists body, F first d0 = inl body /\ Forall ascii_cp body);
      [| destruct (Hitems false d' IHd' Hd') as [body [-> Hb]] ] end.
    2:{ destruct (IHx (S level) Hx) as [a [-> Ha]].
        eexists. split; [reflexivity | ascii_list]. }
    intros first d0 Hd0 Hp. revert first.
    induction d0 as [|[k y] ys IH]; intros first; [eexists; split; [reflexivity | constructor]|].
    inversion Hd0 as [|? ? Hy Hys]; subst.
    cbn [forallb] in Hp. apply andb_true_iff in Hp as [Hpy Hpys].
    destruct (Hy (S level) Hpy) as [a [Ha Ha']].
    destruct (IH Hys Hpys false) as [bd [Hbd Hbd']].
    cbn [snd] in Ha. cbv beta iota fix zeta.
    rewrite Ha, Hbd.
    eexists. split; [reflexivity|]. destruct first; ascii_list.
  - discriminate.
Qed.

Lemma encode_utf8_ascii (s : pystr) :
  Forall ascii_cp s -> Json.encode_utf8 s = inl (map Json.byte_of s).
Proof.
  induction s as [|c r IH]; intros H; [reflexivity|].
  inversion H as [|? ? Hc Hr]; subst. cbn [Json.encode_utf8 map].
  unfold Json.utf8_char. unfold ascii_cp in Hc.
  replace (c <? 128) with true by (symmetry; apply N.ltb_lt; exact Hc).
  rewrite (IH Hr). reflexivity.
Qed.

Lemma byte_of_to_N (c : N) : c < 256 -> Byte.to_N (Json.byte_of c) = c.
Proof.
  intros Hc. unfold Json.byte_of.
  destruct (Byte.of_N c) as [b|] eqn:E.
  - exact (Byte.to_of_N c E).
  - apply Byte.of_N_None_iff in E. lia.
Qed.


Definition json_data_ex : list (pystr * pyval) :=
  [(s2p "agent", PStr [233; 8364; 128512]);
   (s2p "scores", PList [PInt 3; PInt (-12); PNone]);
   (s2p "meta", PDict [(s2p "ok", PBool true)])].


End Extras.
